(** * mamas-kb: the knowledge-base page and the extraction pipeline

    [web/app/page.tsx] is embedded function by function: the category
    configuration object and [getCfg], the page state, the three values
    the page derives from it ([categories], [filtered], [countFor]), the
    event handlers, the choice between the page's three views, and the
    clamping of a card's text.
    JavaScript strings are sequences of UTF-16 code units, objects are finite
    maps with a prototype behind them, arrays are lists.

    The pipeline ([scripts/parse_chats.py]) is not among the sources; the few
    stages needed below are modelled from the specification and marked so. *)

From Stdlib Require Import NArith ZArith String Ascii Sorted Permutation.
From stdpp Require Import base decidable option list sorting countable gmap.

Open Scope N_scope.

(** ** The JavaScript values the page computes with *)

Module JS.

(** A string is the list of its UTF-16 code units, numbers below 65536;
    nothing below depends on the bound. *)
Abbreviation JSString := (list N).

(** A source literal made of ASCII characters only. *)
Definition js (s : string) : JSString :=
  N_of_ascii <$> list_ascii_of_string s.

(** [WhiteSpace] and [LineTerminator] code points of ECMAScript, the ones
    [String.prototype.trim] strips. All of them are single code units. *)
Definition isWhiteSpace (c : N) : bool :=
  (c =? 0x09) || (c =? 0x0A) || (c =? 0x0B) || (c =? 0x0C) || (c =? 0x0D) ||
  (c =? 0x20) || (c =? 0xA0) || (c =? 0x1680) ||
  ((0x2000 <=? c) && (c <=? 0x200A)) ||
  (c =? 0x2028) || (c =? 0x2029) || (c =? 0x202F) || (c =? 0x205F) ||
  (c =? 0x3000) || (c =? 0xFEFF).

Fixpoint trimStart (s : JSString) : JSString :=
  match s with
  | c :: s' => if isWhiteSpace c then trimStart s' else s
  | [] => []
  end.

Definition trimEnd (s : JSString) : JSString :=
  rev (trimStart (rev s)).

(** [s.trim()] *)
Definition trim (s : JSString) : JSString :=
  trimEnd (trimStart s).

(** [s.startsWith(q)] *)
Fixpoint startsWith (s q : JSString) {struct q} : bool :=
  match q, s with
  | [], _ => true
  | _ :: _, [] => false
  | c :: q', d :: s' => (c =? d) && startsWith s' q'
  end.

(** [s.includes(q)]: [q] occurs in [s] at some index. *)
Fixpoint includes (s q : JSString) : bool :=
  startsWith s q ||
  match s with
  | [] => false
  | _ :: s' => includes s' q
  end.

(** [!s] for a string: only the empty string is falsy. *)
Definition not_ (s : JSString) : bool :=
  match s with
  | [] => true
  | _ :: _ => false
  end.

(** [x < y] on strings (IsLessThan): a proper prefix is smaller, otherwise
    the first differing code unit decides. *)
Fixpoint lessThan (x y : JSString) : bool :=
  match x, y with
  | _, [] => false
  | [], _ :: _ => true
  | a :: x', b :: y' =>
      if a <? b then true else if b <? a then false else lessThan x' y'
  end.

(** The comparison [Array.prototype.sort] uses when it is called without a
    comparator. *)
Definition SortCompare (x y : JSString) : Z :=
  if lessThan x y then (-1)%Z else if lessThan y x then 1%Z else 0%Z.

(** [x] may stand before [y] in a sorted array. *)
Definition sort_le (x y : JSString) : Prop :=
  (SortCompare x y <= 0)%Z.

#[global] Instance sort_le_dec x y : Decision (sort_le x y).
Proof. unfold sort_le. apply _. Defined.

(** [array.sort()]: a merge sort, as in the engines; by [sort_unique] below
    any other algorithm returns the same array. *)
Definition sort (l : list JSString) : list JSString :=
  merge_sort sort_le l.

(** A [Set] of strings, as the list of its values in insertion order. *)
Definition Set_add (s : list JSString) (v : JSString) : list JSString :=
  if bool_decide (v ∈ s) then s else s ++ [v].

(** [[...new Set(values)]] *)
Definition new_Set (values : list JSString) : list JSString :=
  foldl Set_add [] values.

(** What a property read on the configuration object can return. *)
Inductive Value (A : Type) : Type :=
  | VUndefined
  | VRecord (r : A)
  | VBuiltin (name : JSString)
  | VObjectPrototype.

Arguments VUndefined {A}.
Arguments VRecord {A} r.
Arguments VBuiltin {A} name.
Arguments VObjectPrototype {A}.

(** The function-valued properties every object inherits from
    [Object.prototype]. *)
Definition ObjectPrototype_functions : list JSString :=
  [ js "constructor"; js "hasOwnProperty"; js "isPrototypeOf";
  js "propertyIsEnumerable"; js "toLocaleString"; js "toString";
  js "valueOf"; js "__defineGetter__"; js "__defineSetter__";
  js "__lookupGetter__"; js "__lookupSetter__" ].

(** [Object.prototype[key]], read with an ordinary object as receiver. *)
Definition ObjectPrototype_Get {A} (key : JSString) : Value A :=
  if bool_decide (key ∈ ObjectPrototype_functions) then VBuiltin key
  else if bool_decide (key = js "__proto__") then VObjectPrototype
  else VUndefined.

(** [obj[key]] for an object literal with own properties [own]: an own
    property first, then the prototype chain. *)
Definition Get {A} (own : gmap JSString A) (key : JSString) : Value A :=
  match own !! key with
  | Some r => VRecord r
  | None => ObjectPrototype_Get key
  end.

(** [v ?? d] *)
Definition nullish {A} (v d : Value A) : Value A :=
  match v with
  | VUndefined => d
  | _ => v
  end.

(** [v.field] where [field] is none of the names a function or
    [Object.prototype] defines. *)
Definition field {A B} (f : A → B) (v : Value A) : option B :=
  match v with
  | VRecord r => Some (f r)
  | _ => None
  end.

End JS.

Import JS.

(** ** [web/app/page.tsx] *)

Module Page.

Record KnowledgeItem : Type := {
  id : JSString;
  category : JSString;
  title : JSString;
  content : JSString;
  tags : list JSString
}.

Record KnowledgeBase : Type := {
  updated_at : JSString;
  total : nat;
  items : list KnowledgeItem
}.

Record CategoryStyle : Type := {
  emoji : JSString;
  pill : JSString;
  header : JSString
}.

Definition CATEGORY_CONFIG : gmap JSString CategoryStyle :=
  list_to_map [
  (js "Pediatricians & Specialists",
   {| emoji := [0xD83E; 0xDE7A];
      pill := js "bg-pink-100 text-pink-800 border-pink-200";
      header := js "from-pink-50 to-white border-pink-100" |});
  (js "OB/GYNs",
   {| emoji := [0xD83E; 0xDD30];
      pill := js "bg-purple-100 text-purple-800 border-purple-200";
      header := js "from-purple-50 to-white border-purple-100" |});
  (js "Baby Classes & Activities",
   {| emoji := [0xD83C; 0xDFB6];
      pill := js "bg-green-100 text-green-800 border-green-200";
      header := js "from-green-50 to-white border-green-100" |});
  (js "Fitness & Wellness",
   {| emoji := [0xD83D; 0xDCAA];
      pill := js "bg-orange-100 text-orange-800 border-orange-200";
      header := js "from-orange-50 to-white border-orange-100" |});
  (js "Stroller-Friendly Dining",
   {| emoji := [0xD83C; 0xDF7D; 0xFE0F];
      pill := js "bg-sky-100 text-sky-800 border-sky-200";
      header := js "from-sky-50 to-white border-sky-100" |});
  (js "Childcare & Nannies",
   {| emoji := [0xD83C; 0xDFE0];
      pill := js "bg-yellow-100 text-yellow-800 border-yellow-200";
      header := js "from-yellow-50 to-white border-yellow-100" |});
  (js "Baby Products & Gear",
   {| emoji := [0xD83D; 0xDECD; 0xFE0F];
      pill := js "bg-indigo-100 text-indigo-800 border-indigo-200";
      header := js "from-indigo-50 to-white border-indigo-100" |});
  (js "Home Services",
   {| emoji := [0xD83E; 0xDDF9];
      pill := js "bg-teal-100 text-teal-800 border-teal-200";
      header := js "from-teal-50 to-white border-teal-100" |});
  (js "Beauty & Personal Care",
   {| emoji := [0x2728];
      pill := js "bg-rose-100 text-rose-800 border-rose-200";
      header := js "from-rose-50 to-white border-rose-100" |});
  (js "UWS Local Tips",
   {| emoji := [0xD83D; 0xDCCD];
      pill := js "bg-amber-100 text-amber-800 border-amber-200";
      header := js "from-amber-50 to-white border-amber-100" |});
  (js "Parenting Tips",
   {| emoji := [0xD83D; 0xDCA1];
      pill := js "bg-cyan-100 text-cyan-800 border-cyan-200";
      header := js "from-cyan-50 to-white border-cyan-100" |})
  ].

Definition DEFAULT_CONFIG : CategoryStyle :=
  {| emoji := [0xD83D; 0xDCCC];
   pill := js "bg-gray-100 text-gray-700 border-gray-200";
   header := js "from-gray-50 to-white border-gray-100" |}.

(** [CATEGORY_CONFIG[category] ?? DEFAULT_CONFIG] *)
Definition getCfg (category : JSString) : Value CategoryStyle :=
  nullish (Get CATEGORY_CONFIG category) (VRecord DEFAULT_CONFIG).

(** The state of [Home]: one field per [useState]. *)
Record State : Type := {
  data : option KnowledgeBase;
  search : JSString;
  activeCategory : JSString;
  loading : bool
}.

Definition All : JSString := js "All".

Definition initial : State :=
  {| data := None; search := []; activeCategory := All; loading := true |}.

Definition setData (d : KnowledgeBase) (st : State) : State :=
  {| data := Some d; search := search st;
   activeCategory := activeCategory st; loading := loading st |}.

Definition setSearch (s : JSString) (st : State) : State :=
  {| data := data st; search := s;
   activeCategory := activeCategory st; loading := loading st |}.

Definition setActiveCategory (c : JSString) (st : State) : State :=
  {| data := data st; search := search st;
   activeCategory := c; loading := loading st |}.

Definition setLoading (b : bool) (st : State) : State :=
  {| data := data st; search := search st;
   activeCategory := activeCategory st; loading := b |}.

(** The fetch of [/knowledge.json] resolved with [d]. *)
Definition loaded (d : KnowledgeBase) (st : State) : State :=
  setLoading false (setData d st).

(** [handleTagClick]; moving the focus to the search box changes no state. *)
Definition handleTagClick (tag : JSString) (st : State) : State :=
  setActiveCategory All (setSearch tag st).

(** [categories] *)
Definition categories (st : State) : list JSString :=
  match data st with
  | None => []
  | Some d => sort (new_Set (category <$> items d))
  end.

(** [countFor] *)
Definition countFor (st : State) (cat : JSString) : nat :=
  match data st with
  | Some d => length (filter (λ i, category i = cat) (items d))
  | None => 0%nat
  end.

Section Filtered.

(** [String.prototype.toLowerCase] is the host's: its Unicode tables are not
    part of the page. *)
Variable toLowerCase : JSString → JSString.

Definition matchesCat (active : JSString) (item : KnowledgeItem) : bool :=
  bool_decide (active = All) || bool_decide (category item = active).

Definition matchesSearch (q : JSString) (item : KnowledgeItem) : bool :=
  not_ q ||
  includes (toLowerCase (title item)) q ||
  includes (toLowerCase (content item)) q ||
  existsb (λ t, includes (toLowerCase t) q) (tags item).

(** [filtered] *)
Definition filtered (st : State) : list KnowledgeItem :=
  match data st with
  | None => []
  | Some d =>
      let q := trim (toLowerCase (search st)) in
      filter (λ item, matchesCat (activeCategory st) item && matchesSearch q item)
             (items d)
  end.

End Filtered.

(** The two counts of the header: [data?.total ?? 0] beside the title and
    [data?.items.length ?? 0] on the button of all categories. *)
Definition tipsShown (st : State) : nat :=
  match data st with
  | Some d => total d
  | None => 0%nat
  end.

Definition allCount (st : State) : nat :=
  match data st with
  | Some d => length (items d)
  | None => 0%nat
  end.

(** Lower-casing of the letters A to Z; it agrees with the host's
    [toLowerCase] on ASCII strings and is used for the concrete runs. *)
Definition asciiLower (s : JSString) : JSString :=
  (λ c, if (0x41 <=? c) && (c <=? 0x5A) then c + 0x20 else c) <$> s.

(** What the host's [toLowerCase] does to a string of white space: nothing. *)
Definition keeps_white_space (toLowerCase : JSString → JSString) : Prop :=
  ∀ s, Forall (λ c, isWhiteSpace c = true) s → toLowerCase s = s.

(** A small knowledge base for the concrete runs: one item of a category
    the page has no style for, one of a category it knows. *)
Definition sleep_tip : KnowledgeItem :=
  {| id := js "kb-001";
   category := js "Sleep Consultants";
   title := js "Gentle sleep coach";
   content := js "Helped with the four month regression";
   tags := [js "Sleep "; js "newborn"] |}.

Definition obgyn_tip : KnowledgeItem :=
  {| id := js "kb-002";
   category := js "OB/GYNs";
   title := js "Dr. Jones";
   content := js "Takes time to answer questions";
   tags := [js "prenatal"] |}.

Definition sample_base : KnowledgeBase :=
  {| updated_at := js "2025-01-01T00:00:00Z";
   total := 2;
   items := [sleep_tip; obgyn_tip] |}.

Definition sample_state : State :=
  setSearch (js "  ") (loaded sample_base initial).

(** The user's actions, one for each event handler of [Home]. *)
Inductive Action : Type :=
  | TypeSearch (s : JSString)
  | ClearSearch
  | ClickAll
  | ClickCategory (cat : JSString)
  | ClickTag (tag : JSString)
  | ClearFilters.

(** A category button:
    [setActiveCategory(cat === activeCategory ? 'All' : cat)] *)
Definition clickCategory (cat : JSString) (st : State) : State :=
  setActiveCategory (if bool_decide (cat = activeCategory st) then All else cat) st.

(** The button of the empty view: [setSearch(''); setActiveCategory('All')] *)
Definition clearFilters (st : State) : State :=
  setActiveCategory All (setSearch [] st).

(** What each handler does to the state. *)
Definition step (a : Action) (st : State) : State :=
  match a with
  | TypeSearch s => setSearch s st
  | ClearSearch => setSearch [] st
  | ClickAll => setActiveCategory All st
  | ClickCategory cat => clickCategory cat st
  | ClickTag tag => handleTagClick tag st
  | ClearFilters => clearFilters st
  end.

(** A sequence of actions, the first one first. *)
Definition actions (acts : list Action) (st : State) : State :=
  foldl (λ st a, step a st) st acts.

(** The effect of [useEffect]: the fetch of [/knowledge.json] settles, with
    the parsed document or with a failure ([None]), which only ends the
    loading. *)
Definition fetched (answer : option KnowledgeBase) (st : State) : State :=
  match answer with
  | Some d => loaded d st
  | None => setLoading false st
  end.

(** Which of its three views [Home] returns. *)
Inductive View : Type :=
  | LoadingView
  | NoResults
  | Cards (shown : list KnowledgeItem).

Section Rendering.

Variable toLowerCase : JSString → JSString.

(** [if (loading) ...] first, then [filtered.length === 0 ? ... : ...]. *)
Definition render (st : State) : View :=
  if loading st then LoadingView
  else match filtered toLowerCase st with
       | [] => NoResults
       | _ :: _ => Cards (filtered toLowerCase st)
       end.

End Rendering.

(** [KnowledgeCard]: [isLong], whether the paragraph carries [line-clamp-3],
    and the label of the button under it, if there is one. *)
Definition isLong (item : KnowledgeItem) : bool :=
  (160 <? length (content item))%nat.

Definition lineClamp (item : KnowledgeItem) (expanded : bool) : bool :=
  negb expanded && isLong item.

Definition toggleLabel (item : KnowledgeItem) (expanded : bool) : option JSString :=
  if isLong item
  then Some (if expanded then js "Show less" else js "Read more")
  else None.

(** A document in which one item is filed under a category called All. *)
Definition misfiled_tip : KnowledgeItem :=
  {| id := js "kb-003";
     category := js "All";
     title := js "Stroller parking";
     content := js "Leave it by the side door";
     tags := [] |}.

Definition odd_base : KnowledgeBase :=
  {| updated_at := js "2025-01-01T00:00:00Z";
     total := 2;
     items := [misfiled_tip; obgyn_tip] |}.

Definition odd_state : State :=
  fetched (Some odd_base) initial.

End Page.

Import Page.

(** ** The extraction pipeline, as the specification describes it *)

Module Pipeline.

(** Text of a chat export: a sequence of characters, each given by its code. *)
Abbreviation Text := (list N).

(** Modelled from the spec: the RawMessage record of section 3 (a sender
    label, a timestamp and the text lines), produced by the parser of
    [scripts/parse_chats.py], which is not among the sources. A
    FilteredMessage is a RawMessage that passed the noise filter. *)
Record RawMessage : Type := {
  sender : Text;
  timestamp : Text;
  text : Text
}.

(** Modelled from the spec: the AnonymizedMessage of section 3, text content
    only. *)
Record AnonymizedMessage : Type := {
  body : Text
}.

Abbreviation Batch := (list AnonymizedMessage).

(** Modelled from the spec: the Anonymizer of section 4.3, which removes the
    sender label and the timestamp and retains only the message text. *)
Definition Anonymizer (m : RawMessage) : AnonymizedMessage :=
  {| body := text m |}.

(** Modelled from the spec: the text size of a message (section 4.4), the
    number of characters of its text. *)
Definition text_size (m : AnonymizedMessage) : nat :=
  length (body m).

(** Modelled from the spec: the total text size of a batch (section 4.4). *)
Definition batch_size (b : Batch) : nat :=
  sum_list_with text_size b.

(** Modelled from the spec: the Batcher of section 4.4, purely size-driven.
    Messages are taken in order; a message joins the open batch while the
    total stays within the limit, otherwise the batch is closed and the
    message opens the next one. *)
Fixpoint Batcher_from (limit : nat) (open : Batch)
    (rest : list AnonymizedMessage) : list Batch :=
  match rest with
  | [] => [open]
  | m :: rest' =>
      if decide (batch_size (open ++ [m]) ≤ limit)%nat
      then Batcher_from limit (open ++ [m]) rest'
      else open :: Batcher_from limit [m] rest'
  end.

(** Modelled from the spec: the Batcher of section 4.4 on the whole sequence;
    the first message opens the first batch, and no message gives no batch. *)
Definition Batcher (limit : nat) (msgs : list AnonymizedMessage) : list Batch :=
  match msgs with
  | [] => []
  | m :: rest => Batcher_from limit [m] rest
  end.

(** The two halves of the batching property: the batches, concatenated in
    order, are the input, and no batch is larger than the limit. *)
Definition partitions (batches : list Batch) (msgs : list AnonymizedMessage) : Prop :=
  concat batches = msgs.

Definition within (limit : nat) (batches : list Batch) : Prop :=
  Forall (λ b, batch_size b ≤ limit)%nat batches.

(** A batch that is not empty, and within the limit unless it is one message
    that alone is larger than the limit. *)
Definition fits (limit : nat) (b : Batch) : Prop :=
  b ≠ [] ∧ ((batch_size b ≤ limit)%nat ∨ ∃ m, b = [m] ∧ (limit < text_size m)%nat).

Section Run.

(** The heuristics of the noise filter (section 4.2), the size limit, the
    answer of the extraction service for a batch ([None] when the batch is
    skipped) and the merge of near-duplicates (section 4.6) are what a run
    is configured with. *)
Variable isNoise : RawMessage → bool.
Variable limit : nat.
Variable ExtractionClient : Batch → option (list KnowledgeItem).
Variable Deduplicator : list KnowledgeItem → list KnowledgeItem.

(** Modelled from the spec: the Noise Filter of section 4.2 keeps the
    messages not classified as noise. *)
Definition NoiseFilter (msgs : list RawMessage) : list RawMessage :=
  filter (λ m, isNoise m = false) msgs.

(** Modelled from the spec: the data flow of section 2 from the parsed
    messages up to the batches handed to the Extraction Client. *)
Definition extraction_input (msgs : list RawMessage) : list Batch :=
  Batcher limit (Anonymizer <$> NoiseFilter msgs).

(** Modelled from the spec: the candidates of all batches that were not
    skipped (section 4.5), in batch order. *)
Definition candidates (msgs : list RawMessage) : list KnowledgeItem :=
  concat (omap ExtractionClient (extraction_input msgs)).

(** Modelled from the spec: the KnowledgeBase of section 4.6, with [total]
    and [updated_at] set to the run's item count and completion time. *)
Definition assemble (now : JSString) (its : list KnowledgeItem) : KnowledgeBase :=
  {| updated_at := now; total := length its; items := its |}.

(** Modelled from the spec: one run of the pipeline on the parsed messages. *)
Definition run (now : JSString) (msgs : list RawMessage) : KnowledgeBase :=
  assemble now (Deduplicator (candidates msgs)).

End Run.

(** A message of five characters. *)
Definition hello : AnonymizedMessage :=
  {| body := js "hello" |}.

End Pipeline.

Import Pipeline.

(** * Properties *)

(** ** Strings *)

Section Strings.

Implicit Types s q pre post x y z : JSString.

Lemma startsWith_app q post : startsWith (q ++ post) q = true.
Proof.
  induction q as [|c q IH]; simpl; [done|].
  by rewrite N.eqb_refl, IH.
Qed.

Lemma startsWith_inv s q : startsWith s q = true → ∃ post, s = q ++ post.
Proof.
  revert s. induction q as [|c q IH]; intros s Hs.
  - by exists s.
  - destruct s as [|d s]; simpl in Hs; [done|].
    apply andb_true_iff in Hs as [Hc Hs].
    apply N.eqb_eq in Hc as ->.
    destruct (IH _ Hs) as [post ->]. by exists post.
Qed.

Lemma includes_unfold s q :
  includes s q =
  startsWith s q || match s with [] => false | _ :: s' => includes s' q end.
Proof. by destruct s. Qed.

(** [includes] is the substring test: it holds exactly when [q] occurs in
    [s] between some prefix and some suffix. *)
Lemma includes_infix s q :
  includes s q = true ↔ ∃ pre post, s = pre ++ q ++ post.
Proof.
  split.
  - induction s as [|d s IH]; rewrite includes_unfold; intros H;
      apply orb_true_iff in H as [H|H]; try done.
    + apply startsWith_inv in H as [post ->]. by exists [], post.
    + apply startsWith_inv in H as [post ->]. by exists [], post.
    + destruct (IH H) as (pre & post & ->). by exists (d :: pre), post.
  - intros (pre & post & ->).
    induction pre as [|d pre IH]; rewrite includes_unfold; simpl.
    + by rewrite startsWith_app.
    + rewrite IH. apply orb_true_r.
Qed.

Lemma trimStart_split s :
  ∃ pre, s = pre ++ trimStart s ∧ Forall (λ c, isWhiteSpace c = true) pre.
Proof.
  induction s as [|c s (pre & Hs & Hpre)]; simpl.
  - by exists [].
  - destruct (isWhiteSpace c) eqn:Hc.
    + exists (c :: pre). split; [by rewrite Hs at 1|by constructor].
    + by exists [].
Qed.

Lemma trimStart_white s :
  trimStart s = [] ↔ Forall (λ c, isWhiteSpace c = true) s.
Proof.
  induction s as [|c s IH]; simpl; [done|].
  destruct (isWhiteSpace c) eqn:Hc; split; intros H.
  - constructor; [done|by apply IH].
  - inversion_clear H. by apply IH.
  - done.
  - inversion_clear H. congruence.
Qed.

Lemma trimEnd_split s :
  ∃ post, s = trimEnd s ++ post ∧ Forall (λ c, isWhiteSpace c = true) post.
Proof.
  destruct (trimStart_split (rev s)) as (pre & Hs & Hpre).
  exists (rev pre). split.
  - unfold trimEnd. rewrite <- rev_app_distr, <- Hs. by rewrite rev_involutive.
  - apply Forall_forall. intros c Hc. rewrite list_elem_of_In, <- in_rev in Hc.
    rewrite Forall_forall in Hpre. apply Hpre. by apply list_elem_of_In.
Qed.

(** What [trim] returns is a piece of its argument. *)
Lemma trim_infix s : ∃ pre post, s = pre ++ trim s ++ post.
Proof.
  destruct (trimStart_split s) as (pre & Hs & _).
  destruct (trimEnd_split (trimStart s)) as (post & Ht & _).
  exists pre, post. unfold trim. by rewrite <- Ht.
Qed.

(** [trim] returns the empty string exactly on strings of white space. *)
Lemma trim_white s :
  trim s = [] ↔ Forall (λ c, isWhiteSpace c = true) s.
Proof.
  unfold trim. split.
  - intros H.
    destruct (trimStart_split s) as (pre & Hs & Hpre).
    destruct (trimEnd_split (trimStart s)) as (post & Ht & Hpost).
    rewrite H in Ht. simpl in Ht. rewrite Hs, Ht.
    by apply Forall_app.
  - intros H. apply trimStart_white in H. by rewrite H.
Qed.

Lemma includes_trim s : includes s (trim s) = true.
Proof. apply includes_infix, trim_infix. Qed.

Lemma lessThan_irrefl x : lessThan x x = false.
Proof.
  induction x as [|a x IH]; simpl; [done|].
  by rewrite N.ltb_irrefl.
Qed.

Lemma lessThan_asym x y : lessThan x y = true → lessThan y x = false.
Proof.
  revert y. induction x as [|a x IH]; intros [|b y]; simpl; try done.
  destruct (N.ltb_spec a b), (N.ltb_spec b a); try done; try lia.
  apply IH.
Qed.

Lemma lessThan_trans x y z :
  lessThan x y = true → lessThan y z = true → lessThan x z = true.
Proof.
  revert y z. induction x as [|a x IH]; intros [|b y] [|c z]; simpl; try done.
  destruct (N.ltb_spec a b), (N.ltb_spec b a), (N.ltb_spec b c),
    (N.ltb_spec c b), (N.ltb_spec a c), (N.ltb_spec c a);
    try done; try lia.
  apply IH.
Qed.

Lemma lessThan_connex x y :
  lessThan x y = false → lessThan y x = false → x = y.
Proof.
  revert y. induction x as [|a x IH]; intros [|b y]; simpl; try done.
  destruct (N.ltb_spec a b), (N.ltb_spec b a); try done.
  intros Hxy Hyx. f_equal; [lia|by apply IH].
Qed.

(** [x] may stand before [y] exactly when [y < x] does not hold. *)
Lemma sort_le_alt x y : sort_le x y ↔ lessThan y x = false.
Proof.
  unfold sort_le, SortCompare.
  destruct (lessThan x y) eqn:Hxy.
  - apply lessThan_asym in Hxy. by rewrite Hxy.
  - destruct (lessThan y x); split; intros; done || lia.
Qed.

#[global] Instance sort_le_total : Total sort_le.
Proof.
  intros x y. rewrite !sort_le_alt.
  destruct (lessThan y x) eqn:Hyx; [right|by left].
  by apply lessThan_asym.
Qed.

#[global] Instance sort_le_trans : Transitive sort_le.
Proof.
  intros x y z. rewrite !sort_le_alt. intros Hyx Hzy.
  destruct (lessThan z x) eqn:Hzx; [|done].
  destruct (lessThan x y) eqn:Hxy.
  - by rewrite (lessThan_trans _ _ _ Hzx Hxy) in Hzy.
  - assert (x = y) as -> by by apply lessThan_connex.
    congruence.
Qed.

#[global] Instance sort_le_antisymm : AntiSymm (=) sort_le.
Proof.
  intros x y. rewrite !sort_le_alt. intros Hyx Hxy. by apply lessThan_connex.
Qed.

Lemma sort_sorted (l : list JSString) : Sorted sort_le (sort l).
Proof. apply (Sorted_merge_sort sort_le). Qed.

Lemma sort_permutation (l : list JSString) : sort l ≡ₚ l.
Proof. apply (merge_sort_Permutation sort_le). Qed.

(** The sorted array does not depend on the sorting algorithm: any sorted
    rearrangement of [l] is [sort l]. *)
Lemma sort_unique (l l' : list JSString) :
  l' ≡ₚ l → Sorted sort_le l' → l' = sort l.
Proof.
  intros Hp Hs. apply (Sorted_unique sort_le); [done|apply sort_sorted|].
  by rewrite sort_permutation.
Qed.

Lemma foldl_Set_add_elem (acc values : list JSString) (v : JSString) :
  v ∈ foldl Set_add acc values ↔ v ∈ acc ∨ v ∈ values.
Proof.
  revert acc. induction values as [|w values IH]; intros acc; simpl.
  - rewrite elem_of_nil. tauto.
  - rewrite IH, elem_of_cons. unfold Set_add. case_bool_decide as Hw.
    + split; [tauto|]. intros [?|[->|?]]; tauto.
    + rewrite elem_of_app, list_elem_of_singleton. tauto.
Qed.

Lemma foldl_Set_add_NoDup (acc values : list JSString) :
  NoDup acc → NoDup (foldl Set_add acc values).
Proof.
  revert acc. induction values as [|w values IH]; intros acc Hacc; simpl.
  - done.
  - apply IH. unfold Set_add. case_bool_decide as Hw; [done|].
    apply NoDup_app. split_and!; [done| |apply NoDup_singleton].
    intros x Hx ->%list_elem_of_singleton. done.
Qed.

(** A [Set] holds each of the values it was built from, once. *)
Lemma new_Set_elem (values : list JSString) (v : JSString) :
  v ∈ new_Set values ↔ v ∈ values.
Proof.
  unfold new_Set. rewrite foldl_Set_add_elem, elem_of_nil. tauto.
Qed.

Lemma new_Set_NoDup (values : list JSString) : NoDup (new_Set values).
Proof. apply foldl_Set_add_NoDup, NoDup_nil_2. Qed.

End Strings.

(** ** The category configuration and [getCfg] *)

Section Config.

Implicit Types category key : JSString.

(** A category the configuration lists gets its own style. *)
Lemma getCfg_recognized category style :
  CATEGORY_CONFIG !! category = Some style → getCfg category = VRecord style.
Proof. intros H. unfold getCfg, Get. by rewrite H. Qed.

(** A category that is neither listed nor the name of a property of
    [Object.prototype] gets the default style. *)
Lemma getCfg_default category :
  CATEGORY_CONFIG !! category = None →
  category ∉ ObjectPrototype_functions →
  category ≠ js "__proto__" →
  getCfg category = VRecord DEFAULT_CONFIG.
Proof.
  intros Hown Hfun Hproto. unfold getCfg, Get, ObjectPrototype_Get.
  rewrite Hown. by rewrite !bool_decide_false.
Qed.

(** No name inherited from [Object.prototype] is a listed category. *)
Lemma inherited_not_listed key :
  key ∈ js "__proto__" :: ObjectPrototype_functions →
  CATEGORY_CONFIG !! key = None.
Proof.
  revert key. apply Forall_forall.
  repeat (constructor; [by vm_compute|]). constructor.
Qed.

(** For the name of an inherited function, [getCfg] returns that function,
    and the style fields read from it are undefined. *)
Lemma getCfg_inherited key :
  key ∈ ObjectPrototype_functions →
  getCfg key = VBuiltin key ∧
  field emoji (getCfg key) = None ∧
  field pill (getCfg key) = None ∧
  field header (getCfg key) = None.
Proof.
  intros Hkey.
  assert (getCfg key = VBuiltin key) as ->; [|done].
  unfold getCfg, Get, ObjectPrototype_Get.
  rewrite inherited_not_listed by (by right).
  by rewrite bool_decide_true.
Qed.

(** [getCfg] always returns a value: it is never undefined. *)
Lemma getCfg_defined category : getCfg category ≠ VUndefined.
Proof.
  unfold getCfg, Get, ObjectPrototype_Get.
  destruct (CATEGORY_CONFIG !! category); [done|].
  repeat case_bool_decide; done.
Qed.

(** C4, at the category ["constructor"]: it is not a listed category, yet
    [getCfg] returns the function inherited from [Object.prototype] instead
    of the default style, so the card reads undefined style fields where the
    default ones were meant. *)
Theorem getCfg_constructor :
  CATEGORY_CONFIG !! js "constructor" = None ∧
  getCfg (js "constructor") = VBuiltin (js "constructor") ∧
  getCfg (js "constructor") ≠ VRecord DEFAULT_CONFIG ∧
  field emoji (getCfg (js "constructor")) = None.
Proof.
  assert (js "constructor" ∈ ObjectPrototype_functions) as Hkey by by left.
  destruct (getCfg_inherited _ Hkey) as (Hget & Hemoji & _).
  split_and!; [|done| |done].
  - apply inherited_not_listed. by right.
  - by rewrite Hget.
Qed.

End Config.

(** ** The displayed list *)

Section Display.

Variable toLowerCase : JSString → JSString.

Implicit Types (st : State) (d : KnowledgeBase) (item : KnowledgeItem).

Lemma filtered_loaded st d :
  data st = Some d →
  filtered toLowerCase st =
  filter (λ item, matchesCat (activeCategory st) item &&
                  matchesSearch toLowerCase (trim (toLowerCase (search st))) item)
         (items d).
Proof. intros H. unfold filtered. by rewrite H. Qed.

Lemma filter_everything {A} (P : A → Prop) `{!∀ x, Decision (P x)} (l : list A) :
  Forall P l → filter P l = l.
Proof.
  induction 1 as [|x l Hx _ IH]; [done|].
  by rewrite filter_cons_True, IH.
Qed.

Lemma matchesCat_All item : matchesCat All item = true.
Proof. unfold matchesCat. by rewrite bool_decide_true. Qed.

Lemma matchesSearch_empty item : matchesSearch toLowerCase [] item = true.
Proof. done. Qed.

(** With no category selected and an empty query nothing is filtered out. *)
Lemma filtered_everything st d :
  data st = Some d →
  activeCategory st = All →
  trim (toLowerCase (search st)) = [] →
  filtered toLowerCase st = items d.
Proof.
  intros Hd Hcat Hq. rewrite (filtered_loaded _ _ Hd), Hcat, Hq.
  apply filter_everything, Forall_forall. intros item _.
  by rewrite matchesCat_All, matchesSearch_empty.
Qed.

(** The displayed items are the items that pass both tests. *)
Lemma filtered_elem st d item :
  data st = Some d →
  item ∈ filtered toLowerCase st ↔
  item ∈ items d ∧
  matchesCat (activeCategory st) item = true ∧
  matchesSearch toLowerCase (trim (toLowerCase (search st))) item = true.
Proof.
  intros Hd. rewrite (filtered_loaded _ _ Hd), list_elem_of_filter.
  rewrite andb_True, !Is_true_true. tauto.
Qed.

(** An item is shown whenever no category is selected and the search
    matches it, whatever its category is. *)
Lemma filtered_any_category st d item :
  data st = Some d →
  item ∈ items d →
  activeCategory st = All →
  matchesSearch toLowerCase (trim (toLowerCase (search st))) item = true →
  item ∈ filtered toLowerCase st.
Proof.
  intros Hd Hitem Hcat Hsearch. apply (filtered_elem _ d); [done|].
  by rewrite Hcat, matchesCat_All.
Qed.

(** C8: the displayed list is a subsequence of [data.items], in the same
    order; when no category is selected and the query, that is the
    lower-cased and trimmed search string, is empty, it is [data.items]
    itself. The same holds when the search string itself trims to the empty
    string, since lower-casing leaves white space alone. *)
Theorem filtered_subsequence st d :
  data st = Some d →
  filtered toLowerCase st `sublist_of` items d ∧
  (activeCategory st = All → trim (toLowerCase (search st)) = [] →
   filtered toLowerCase st = items d) ∧
  (activeCategory st = All → keeps_white_space toLowerCase →
   trim (search st) = [] →
   filtered toLowerCase st = items d).
Proof.
  intros Hd. split_and!.
  - rewrite (filtered_loaded _ _ Hd). apply sublist_filter.
  - by apply filtered_everything.
  - intros Hcat Hlower Hsearch. apply filtered_everything; [done..|].
    rewrite Hlower by by apply trim_white. done.
Qed.

(** C9: after a click on one of an item's tags the query is a piece of that
    tag in lower case, so the item passes the filter and is displayed. *)
Theorem tag_click_shows_item st d item tag :
  data st = Some d →
  item ∈ items d →
  tag ∈ tags item →
  includes (toLowerCase tag) (trim (toLowerCase tag)) = true ∧
  search (handleTagClick tag st) = tag ∧
  activeCategory (handleTagClick tag st) = All ∧
  item ∈ filtered toLowerCase (handleTagClick tag st).
Proof.
  intros Hd Hitem Htag. split_and!; [apply includes_trim|done..|].
  apply (filtered_elem _ d); [done|]. simpl.
  split_and!; [done|apply matchesCat_All|]. unfold matchesSearch.
  assert (existsb (λ t, includes (toLowerCase t) (trim (toLowerCase tag)))
            (tags item) = true) as ->; [|by rewrite !orb_true_r].
  apply existsb_exists. exists tag. split; [by apply list_elem_of_In|].
  apply includes_trim.
Qed.

End Display.

(** ** The category strip *)

Section Strip.

Implicit Types (st : State) (d : KnowledgeBase) (c : JSString).

Lemma categories_loaded st d :
  data st = Some d → categories st = sort (new_Set (category <$> items d)).
Proof. intros H. unfold categories. by rewrite H. Qed.

Lemma countFor_loaded st d c :
  data st = Some d →
  countFor st c = length (filter (λ i, category i = c) (items d)).
Proof. intros H. unfold countFor. by rewrite H. Qed.

Lemma sum_list_zero {A} (f : A → nat) (l : list A) :
  (∀ x, x ∈ l → f x = 0%nat) → sum_list (f <$> l) = 0%nat.
Proof.
  induction l as [|x l IH]; intros H; csimpl; [done|].
  rewrite H by left. rewrite IH; [done|]. intros y Hy. apply H. by right.
Qed.

Lemma sum_list_plus {A} (f g : A → nat) (l : list A) :
  sum_list ((λ x, f x + g x)%nat <$> l) =
  (sum_list (f <$> l) + sum_list (g <$> l))%nat.
Proof. induction l as [|x l IH]; csimpl; [done|]. rewrite IH. lia. Qed.

(** Over a list without repetition that holds [c0], the tests "is [c0]" count
    one. *)
Lemma sum_list_indicator (cs : list JSString) c0 :
  NoDup cs → c0 ∈ cs →
  sum_list ((λ c, if decide (c0 = c) then 1 else 0)%nat <$> cs) = 1%nat.
Proof.
  induction 1 as [|c cs Hc Hcs IH]; intros Hin; [by apply elem_of_nil in Hin|].
  csimpl. destruct (decide (c0 = c)) as [->|Hne].
  - rewrite sum_list_zero; [done|]. intros c' Hc'.
    destruct (decide (c = c')) as [->|]; done.
  - apply elem_of_cons in Hin as [?|Hin]; [done|]. by rewrite IH.
Qed.

(** The counts per category add up to the number of items, over any list
    that holds each category of an item once. *)
Lemma count_by_category (its : list KnowledgeItem) (cs : list JSString) :
  NoDup cs →
  (∀ i, i ∈ its → category i ∈ cs) →
  sum_list ((λ c, length (filter (λ i, category i = c) its)) <$> cs) =
  length its.
Proof.
  intros Hcs. induction its as [|i its IH]; intros Hin.
  - by apply sum_list_zero.
  - transitivity (sum_list ((λ c, (if decide (category i = c) then 1 else 0) +
        length (filter (λ i, category i = c) its))%nat <$> cs)).
    { f_equal. apply list_fmap_ext. intros _ c _.
      rewrite filter_cons. by destruct (decide (category i = c)). }
    rewrite sum_list_plus, sum_list_indicator, IH; [done| |done|].
    + intros j Hj. apply Hin. by right.
    + apply Hin. by left.
Qed.

Lemma strictly_sorted (l : list JSString) :
  Sorted sort_le l → NoDup l →
  StronglySorted (λ x y, lessThan x y = true) l.
Proof.
  intros Hs%(Sorted_StronglySorted sort_le). induction Hs as [|x l Hl IH Hx].
  - constructor.
  - intros [Hxl Hnd]%NoDup_cons. constructor; [by apply IH|].
    rewrite Forall_forall in Hx |- *. intros y Hy.
    specialize (Hx y Hy). apply sort_le_alt in Hx.
    destruct (lessThan x y) eqn:Hxy; [done|].
    assert (x = y) as -> by by apply lessThan_connex. done.
Qed.

(** C10: the strip lists every category that occurs in [data.items], each
    one once, in ascending order of their code units, and the counts shown
    beside them add up to the number of items. *)
Theorem categories_strip st d :
  data st = Some d →
  NoDup (categories st) ∧
  (∀ c, c ∈ categories st ↔ ∃ item, item ∈ items d ∧ category item = c) ∧
  StronglySorted (λ x y, lessThan x y = true) (categories st) ∧
  sum_list (countFor st <$> categories st) = length (items d).
Proof.
  intros Hd. rewrite (categories_loaded _ _ Hd).
  assert (NoDup (sort (new_Set (category <$> items d)))) as Hnd.
  { rewrite sort_permutation. apply new_Set_NoDup. }
  assert (∀ c, c ∈ sort (new_Set (category <$> items d)) ↔
               ∃ item, item ∈ items d ∧ category item = c) as Hin.
  { intros c. rewrite sort_permutation, new_Set_elem, list_elem_of_fmap.
    split; intros (item & ? & ?); by exists item. }
  split_and!; [done|done|by apply strictly_sorted, Hnd; apply sort_sorted|].
  transitivity (sum_list ((λ c, length (filter (λ i, category i = c) (items d)))
                  <$> sort (new_Set (category <$> items d)))).
  { f_equal. apply list_fmap_ext. intros _ c _. by apply countFor_loaded. }
  apply count_by_category; [done|].
  intros i Hi. apply Hin. by exists i.
Qed.

End Strip.

(** ** The order of the strip is the lexicographic one *)

Section Lexicographic.

Implicit Types x y pre post : JSString.

(** [x < y] holds exactly when [x] is a proper prefix of [y], or the two
    differ first at a place where [x] has the smaller code unit. *)
Lemma lessThan_lexicographic x y :
  lessThan x y = true ↔
  (∃ b post, y = x ++ b :: post) ∨
  (∃ pre a b x' y', x = pre ++ a :: x' ∧ y = pre ++ b :: y' ∧ a < b).
Proof.
  split.
  - revert y. induction x as [|a x IH]; intros [|b y]; simpl; try done.
    + intros _. left. by exists b, y.
    + destruct (N.ltb_spec a b) as [Hab|Hab].
      { intros _. right. by exists [], a, b, x, y. }
      destruct (N.ltb_spec b a) as [Hba|Hba]; [done|].
      assert (a = b) as -> by lia.
      intros [(c & post & ->)|(pre & a' & b' & x' & y' & -> & -> & Hlt)]%IH.
      * left. by exists c, post.
      * right. by exists (b :: pre), a', b', x', y'.
  - intros [(b & post & ->)|(pre & a & b & x' & y' & -> & -> & Hlt)].
    + induction x as [|a x IH]; simpl; [done|].
      by rewrite N.ltb_irrefl.
    + induction pre as [|c pre IH]; simpl.
      * by apply N.ltb_lt in Hlt as ->.
      * by rewrite N.ltb_irrefl.
Qed.

End Lexicographic.

(** ** Concrete runs of the page *)

Section Runs.

Lemma asciiLower_keeps_white_space : keeps_white_space asciiLower.
Proof.
  intros s. induction 1 as [|c s Hc _ IH]; [done|].
  unfold asciiLower in *. csimpl. rewrite IH. f_equal.
  destruct (N.leb_spec 0x41 c), (N.leb_spec c 0x5A); simpl; try done.
  unfold isWhiteSpace in Hc.
  repeat (apply orb_true_iff in Hc as [Hc|Hc]);
    try (apply N.eqb_eq in Hc; lia).
  apply andb_true_iff in Hc as [Hc _]. apply N.leb_le in Hc. lia.
Qed.

Lemma getCfg_recognized_run :
  (CATEGORY_CONFIG !! js "OB/GYNs" =
    Some {| emoji := [0xD83E; 0xDD30];
            pill := js "bg-purple-100 text-purple-800 border-purple-200";
            header := js "from-purple-50 to-white border-purple-100" |}) ∧
  field emoji (getCfg (js "OB/GYNs")) = Some [0xD83E; 0xDD30].
Proof.
  assert (CATEGORY_CONFIG !! js "OB/GYNs" =
    Some {| emoji := [0xD83E; 0xDD30];
            pill := js "bg-purple-100 text-purple-800 border-purple-200";
            header := js "from-purple-50 to-white border-purple-100" |}) as Hown
    by (by vm_compute).
  split; [exact Hown|].
  rewrite (getCfg_recognized _ _ Hown). reflexivity.
Defined.

Lemma getCfg_default_run :
  CATEGORY_CONFIG !! js "Sleep Consultants" = None ∧
  (js "Sleep Consultants" ∉ ObjectPrototype_functions) ∧
  js "Sleep Consultants" ≠ js "__proto__" ∧
  getCfg (js "Sleep Consultants") = VRecord DEFAULT_CONFIG.
Proof.
  assert (CATEGORY_CONFIG !! js "Sleep Consultants" = None) as Hown
    by (by vm_compute).
  assert (js "Sleep Consultants" ∉ ObjectPrototype_functions) as Hfun
    by (refine (bool_decide_unpack _ _); by vm_compute).
  assert (js "Sleep Consultants" ≠ js "__proto__") as Hproto
    by (refine (bool_decide_unpack _ _); by vm_compute).
  split_and!; [exact Hown|exact Hfun|exact Hproto|].
  exact (getCfg_default _ Hown Hfun Hproto).
Defined.

Lemma filtered_any_category_run :
  data sample_state = Some sample_base ∧
  sleep_tip ∈ items sample_base ∧
  activeCategory sample_state = All ∧
  CATEGORY_CONFIG !! category sleep_tip = None ∧
  sleep_tip ∈ filtered asciiLower sample_state.
Proof.
  assert (sleep_tip ∈ items sample_base) as Hitem by apply list_elem_of_here.
  split_and!; [reflexivity|exact Hitem|reflexivity|by vm_compute|].
  exact (filtered_any_category asciiLower sample_state sample_base sleep_tip
           eq_refl Hitem eq_refl eq_refl).
Defined.

Lemma filtered_subsequence_run :
  data sample_state = Some sample_base ∧
  trim (search sample_state) = [] ∧
  filtered asciiLower sample_state `sublist_of` items sample_base ∧
  filtered asciiLower sample_state = items sample_base.
Proof.
  destruct (filtered_subsequence asciiLower sample_state sample_base eq_refl)
    as (Hsub & Hquery & Hwhite).
  split_and!; [reflexivity|reflexivity|exact Hsub|].
  exact (Hwhite eq_refl asciiLower_keeps_white_space eq_refl).
Defined.

Lemma tag_click_shows_item_run :
  data sample_state = Some sample_base ∧
  sleep_tip ∈ items sample_base ∧
  js "Sleep " ∈ tags sleep_tip ∧
  sleep_tip ∈ filtered asciiLower (handleTagClick (js "Sleep ") sample_state).
Proof.
  assert (sleep_tip ∈ items sample_base) as Hitem by apply list_elem_of_here.
  assert (js "Sleep " ∈ tags sleep_tip) as Htag by apply list_elem_of_here.
  split_and!; [reflexivity|exact Hitem|exact Htag|].
  apply (tag_click_shows_item asciiLower sample_state sample_base
           sleep_tip (js "Sleep ") eq_refl Hitem Htag).
Defined.

Lemma categories_strip_run :
  data sample_state = Some sample_base ∧
  categories sample_state = [js "OB/GYNs"; js "Sleep Consultants"] ∧
  sum_list (countFor sample_state <$> categories sample_state) = 2%nat.
Proof.
  split_and!; [reflexivity|by vm_compute|].
  apply (categories_strip sample_state sample_base eq_refl).
Defined.

End Runs.

(** ** The pipeline *)

Section Batches.

Implicit Types (limit : nat) (b open : Batch) (m : AnonymizedMessage).

Lemma Batcher_from_concat limit open rest :
  concat (Batcher_from limit open rest) = open ++ rest.
Proof.
  revert open. induction rest as [|m rest IH]; intros open; simpl.
  - by rewrite app_nil_r.
  - case_decide; simpl; rewrite IH; [|done].
    by rewrite <- app_assoc.
Qed.

Lemma fits_singleton limit m : fits limit [m].
Proof.
  split; [done|]. destruct (decide (text_size m ≤ limit)%nat).
  - left. unfold batch_size. simpl. lia.
  - right. exists m. split; [done|lia].
Qed.

Lemma Batcher_from_fits limit open rest :
  fits limit open → Forall (fits limit) (Batcher_from limit open rest).
Proof.
  revert open. induction rest as [|m rest IH]; intros open Hopen; simpl.
  - by constructor.
  - case_decide as Hsize.
    + apply IH. split; [by destruct open|by left].
    + constructor; [done|]. apply IH, fits_singleton.
Qed.

Lemma batch_size_elem b m : m ∈ b → (text_size m ≤ batch_size b)%nat.
Proof. apply sum_list_with_in. Qed.

(** No way of batching can both keep every message and keep every batch
    within the limit: a message larger than the limit has to go somewhere. *)
Lemma no_batcher_fits_all (B : nat → list AnonymizedMessage → list Batch) :
  ¬ (∀ limit msgs, partitions (B limit msgs) msgs ∧ within limit (B limit msgs)).
Proof.
  intros H. destruct (H 3%nat [hello]) as [Hcover Hsize].
  assert (In hello (concat (B 3%nat [hello]))) as Hin.
  { rewrite Hcover. by left. }
  apply in_concat in Hin as (b & Hb & Hm).
  unfold within in Hsize. rewrite Forall_forall in Hsize.
  apply list_elem_of_In in Hb, Hm.
  specialize (Hsize b Hb). apply batch_size_elem in Hm.
  assert (text_size hello = 5%nat) as Hhello by done. lia.
Qed.

Lemma Batcher_concat limit (msgs : list AnonymizedMessage) :
  concat (Batcher limit msgs) = msgs.
Proof. destruct msgs as [|m rest]; [done|]. apply Batcher_from_concat. Qed.

Lemma Batcher_fits limit (msgs : list AnonymizedMessage) :
  Forall (fits limit) (Batcher limit msgs).
Proof.
  destruct msgs as [|m rest]; [by constructor|].
  apply Batcher_from_fits, fits_singleton.
Qed.


(** When every message is within the limit, so is every batch. *)
Lemma Batcher_within limit (msgs : list AnonymizedMessage) :
  Forall (λ m, text_size m ≤ limit)%nat msgs → within limit (Batcher limit msgs).
Proof.
  intros Hmsgs. pose proof (Batcher_concat limit msgs) as Hcover.
  pose proof (Batcher_fits limit msgs) as Hfits.
  unfold within. rewrite Forall_forall in Hfits |- *. intros b Hb.
  destruct (Hfits b Hb) as [_ [?|(m & -> & Hm)]]; [done|].
  rewrite Forall_forall in Hmsgs. assert (m ∈ msgs) as Hin; [|apply Hmsgs in Hin; lia].
  rewrite <- Hcover. apply list_elem_of_In, in_concat.
  exists [m]. split; [by apply list_elem_of_In|by left].
Qed.


End Batches.

Section Flow.

Variable isNoise : RawMessage → bool.
Variable limit : nat.
Variable ExtractionClient : Batch → option (list KnowledgeItem).
Variable Deduplicator : list KnowledgeItem → list KnowledgeItem.

(** C2: the knowledge base a run produces has [total] equal to the number of
    its items, so the two counts in the page's header agree. *)
Theorem run_total (now : JSString) (msgs : list RawMessage) (st : State) :
  total (run isNoise limit ExtractionClient Deduplicator now msgs) =
    length (items (run isNoise limit ExtractionClient Deduplicator now msgs)) ∧
  tipsShown (loaded (run isNoise limit ExtractionClient Deduplicator now msgs) st) =
    allCount (loaded (run isNoise limit ExtractionClient Deduplicator now msgs) st).
Proof. done. Qed.

End Flow.

(** ** The style a card gets *)

Section Style.

(** A style field read from what [getCfg] returns is undefined exactly for
    the twelve property names an object inherits from [Object.prototype]:
    every other category string, listed or not, gets a style. *)
Theorem style_undefined_iff {B} (f : CategoryStyle → B) (category : JSString) :
  field f (getCfg category) = None ↔
  category ∈ js "__proto__" :: ObjectPrototype_functions.
Proof.
  split.
  - unfold getCfg, Get, ObjectPrototype_Get.
    destruct (CATEGORY_CONFIG !! category); [done|].
    case_bool_decide; [by right|].
    case_bool_decide as Hproto; [subst; by left|done].
  - intros Hkey. unfold getCfg, Get, ObjectPrototype_Get.
    rewrite (inherited_not_listed _ Hkey).
    apply elem_of_cons in Hkey as [->|Hkey].
    + done.
    + by rewrite bool_decide_true.
Qed.

End Style.

(** ** The page as a state machine *)

Section Machine.

Variable toLowerCase : JSString → JSString.

Implicit Types (st : State) (d : KnowledgeBase) (item : KnowledgeItem).
Implicit Types (a : Action) (acts : list Action) (cat s : JSString).

Lemma actions_cons a acts st : actions (a :: acts) st = actions acts (step a st).
Proof. done. Qed.

Lemma step_data a st : data (step a st) = data st.
Proof. by destruct a. Qed.

Lemma step_loading a st : loading (step a st) = loading st.
Proof. by destruct a. Qed.

Lemma actions_data acts st : data (actions acts st) = data st.
Proof.
  revert st. induction acts as [|a acts IH]; intros st; [done|].
  by rewrite actions_cons, IH, step_data.
Qed.

Lemma actions_loading acts st : loading (actions acts st) = loading st.
Proof.
  revert st. induction acts as [|a acts IH]; intros st; [done|].
  by rewrite actions_cons, IH, step_loading.
Qed.

Lemma categories_NoDup st : NoDup (categories st).
Proof.
  unfold categories. destruct (data st); [|apply NoDup_nil_2].
  rewrite sort_permutation. apply new_Set_NoDup.
Qed.

Lemma categories_elem st d cat :
  data st = Some d →
  cat ∈ categories st ↔ ∃ item, item ∈ items d ∧ category item = cat.
Proof.
  intros Hd. rewrite (categories_loaded _ _ Hd).
  rewrite sort_permutation, new_Set_elem, list_elem_of_fmap.
  split; intros (item & ? & ?); by exists item.
Qed.

(** No action of the user changes the loaded data, so the category strip,
    the counts on its buttons and the two counts of the header stay as they
    are while the user searches and filters. *)
Theorem actions_keep_strip acts st :
  data (actions acts st) = data st ∧
  categories (actions acts st) = categories st ∧
  (∀ cat, countFor (actions acts st) cat = countFor st cat) ∧
  tipsShown (actions acts st) = tipsShown st ∧
  allCount (actions acts st) = allCount st.
Proof.
  unfold categories, countFor, tipsShown, allCount.
  by rewrite actions_data.
Qed.

(** When the fetch fails the page leaves the loading view for the view of no
    results, and nothing the user does brings up a card: the fetch is not
    tried again. *)
Theorem failed_fetch_no_results acts :
  render toLowerCase (actions acts (fetched None initial)) = NoResults.
Proof.
  unfold render, filtered. by rewrite actions_loading, actions_data.
Qed.

(** When the fetch succeeds the page shows every item of the document, in
    the document's order; a document without items gives the view of no
    results. *)
Theorem fetched_shows_all d :
  keeps_white_space toLowerCase →
  render toLowerCase (fetched (Some d) initial) =
  match items d with
  | [] => NoResults
  | _ :: _ => Cards (items d)
  end.
Proof.
  intros Hlower. unfold render. simpl (loading _).
  rewrite (filtered_everything toLowerCase _ d); [done..|].
  simpl. by rewrite Hlower by constructor.
Qed.


Lemma clickCategory_active cat st :
  cat ≠ activeCategory st → activeCategory (clickCategory cat st) = cat.
Proof. intros H. unfold clickCategory. simpl. by rewrite bool_decide_false. Qed.

(** With an empty query, a click on the button of a category that is not the
    selected one displays the items of that category and no others, as many
    as the count on the button says; the category must not be called All. *)
Theorem category_click_count st d cat :
  data st = Some d →
  trim (toLowerCase (search st)) = [] →
  cat ≠ All →
  cat ≠ activeCategory st →
  filtered toLowerCase (step (ClickCategory cat) st) =
    filter (λ i, category i = cat) (items d) ∧
  length (filtered toLowerCase (step (ClickCategory cat) st)) = countFor st cat.
Proof.
  intros Hd Hq HAll Hactive.
  assert (filtered toLowerCase (step (ClickCategory cat) st) =
          filter (λ i, category i = cat) (items d)) as Heq.
  { rewrite (filtered_loaded toLowerCase _ d) by done.
    change (activeCategory (step (ClickCategory cat) st))
      with (activeCategory (clickCategory cat st)).
    change (search (step (ClickCategory cat) st)) with (search st).
    rewrite (clickCategory_active _ _ Hactive), Hq.
    apply list_filter_iff. intros i. unfold matchesCat.
    rewrite (bool_decide_false (cat = All)) by done. simpl.
    rewrite andb_true_r. apply bool_decide_spec. }
  split; [done|]. by rewrite Heq, (countFor_loaded _ d).
Qed.

(** A category that is called All cannot be selected: with an empty query, a
    click on its button displays the items of every category. *)
Theorem category_named_All st d :
  data st = Some d →
  trim (toLowerCase (search st)) = [] →
  filtered toLowerCase (step (ClickCategory All) st) = items d.
Proof.
  intros Hd Hq. apply filtered_everything; [done| |done].
  simpl. unfold clickCategory. simpl. by case_bool_decide.
Qed.

End Machine.

(** ** Narrowing the displayed list *)

Section Narrowing.

Variable toLowerCase : JSString → JSString.

Implicit Types (st : State) (d : KnowledgeBase) (item : KnowledgeItem).
Implicit Types (cat s q : JSString).

Lemma sublist_filter_impl {A} (P Q : A → Prop)
    `{!∀ x, Decision (P x), !∀ x, Decision (Q x)} (l : list A) :
  (∀ x, P x → Q x) → filter P l `sublist_of` filter Q l.
Proof.
  intros HPQ. induction l as [|x l IH]; [done|].
  rewrite !filter_cons. destruct (decide (P x)) as [HP|HP].
  - rewrite decide_True by by apply HPQ. by constructor.
  - destruct (decide (Q x)); [by constructor|done].
Qed.

Lemma includes_trans s q1 q2 :
  includes s q2 = true → includes q2 q1 = true → includes s q1 = true.
Proof.
  rewrite !includes_infix.
  intros (pre & post & ->) (pre' & post' & ->).
  exists (pre ++ pre'), (post' ++ post). by rewrite <- !app_assoc.
Qed.

Lemma includes_nil_inv q : includes [] q = true → q = [].
Proof.
  intros (pre & post & H)%includes_infix. symmetry in H.
  apply app_eq_nil in H as [_ H]. by apply app_eq_nil in H as [H _].
Qed.

(** An item that matches a query matches every piece of the query. *)
Lemma matchesSearch_piece q1 q2 item :
  includes q2 q1 = true →
  matchesSearch toLowerCase q2 item = true →
  matchesSearch toLowerCase q1 item = true.
Proof.
  intros Hq. unfold matchesSearch. destruct q2 as [|c q2].
  { apply includes_nil_inv in Hq as ->. done. }
  simpl. rewrite !orb_true_iff, !existsb_exists.
  intros [[H|H]|(t & Ht & H)].
  - left. left. right. by eapply includes_trans.
  - left. right. by eapply includes_trans.
  - right. exists t. split; [done|]. by eapply includes_trans.
Qed.

(** Selecting a category only takes items away: what is displayed under a
    category is, in the same order, part of what is displayed under All. *)
Theorem category_narrows st cat :
  filtered toLowerCase (setActiveCategory cat st) `sublist_of`
  filtered toLowerCase (setActiveCategory All st).
Proof.
  unfold filtered. cbn [data search activeCategory setActiveCategory].
  destruct (data st) as [d|]; [|done].
  apply sublist_filter_impl. intros item.
  rewrite matchesCat_All, !andb_True. intros [_ ?]. by split.
Qed.

(** A query that holds another one as a piece only takes items away. *)
Theorem longer_query_narrows st s1 s2 :
  includes (trim (toLowerCase s2)) (trim (toLowerCase s1)) = true →
  filtered toLowerCase (setSearch s2 st) `sublist_of`
  filtered toLowerCase (setSearch s1 st).
Proof.
  intros Hq. unfold filtered. cbn [data search activeCategory setSearch].
  destruct (data st) as [d|]; [|done].
  apply sublist_filter_impl. intros item.
  rewrite !andb_True, !Is_true_true. intros [? ?]. split; [done|].
  by eapply matchesSearch_piece.
Qed.

(** The search string being an item's own title, its own content or one of
    its own tags, the item is displayed, under All and under its own
    category. *)
Theorem search_own_field st d item s active :
  data st = Some d →
  item ∈ items d →
  s = title item ∨ s = content item ∨ s ∈ tags item →
  active = All ∨ active = category item →
  item ∈ filtered toLowerCase (setActiveCategory active (setSearch s st)).
Proof.
  intros Hd Hitem Hs Hactive. apply (filtered_elem toLowerCase _ d); [done|].
  simpl. split_and!; [done| |].
  - destruct Hactive as [->| ->]; [apply matchesCat_All|].
    unfold matchesCat. rewrite (bool_decide_true (_ = category item)) by done.
    apply orb_true_r.
  - unfold matchesSearch. rewrite !orb_true_iff, existsb_exists.
    destruct Hs as [->|[->|Hs]].
    + left. left. right. apply includes_trim.
    + left. right. apply includes_trim.
    + right. exists s. split; [by apply list_elem_of_In|apply includes_trim].
Qed.

(** Every button of the strip shows a count above zero, and a category with
    a count above zero has a button. *)
Theorem countFor_positive st cat :
  cat ∈ categories st ↔ (0 < countFor st cat)%nat.
Proof.
  destruct (data st) as [d|] eqn:Hd.
  - rewrite (categories_elem _ d), (countFor_loaded _ d) by done. split.
    + intros (item & Hitem & Hcat).
      assert (item ∈ filter (λ i, category i = cat) (items d)) as Hin
        by by apply list_elem_of_filter.
      destruct (filter _ _); [by apply elem_of_nil in Hin|simpl; lia].
    + intros Hlen.
      destruct (filter (λ i, category i = cat) (items d)) as [|item l] eqn:Hf;
        [simpl in Hlen; lia|].
      assert (item ∈ filter (λ i, category i = cat) (items d)) as Hin
        by (rewrite Hf; left).
      apply list_elem_of_filter in Hin as [? ?]. by exists item.
  - unfold categories, countFor. rewrite Hd. split; [by intros ?%elem_of_nil|lia].
Qed.

(** For a fixed search the lists displayed under the single categories have,
    together, as many items as the list displayed under All, provided no
    category is called All. *)
Theorem filtered_by_category_sum st d :
  data st = Some d →
  All ∉ categories st →
  sum_list ((λ cat, length (filtered toLowerCase (setActiveCategory cat st)))
              <$> categories st) =
  length (filtered toLowerCase (setActiveCategory All st)).
Proof.
  intros Hd HAll.
  set (q := trim (toLowerCase (search st))).
  set (hits := filter (λ i, matchesSearch toLowerCase q i = true) (items d)).
  assert (filtered toLowerCase (setActiveCategory All st) = hits) as ->.
  { rewrite (filtered_loaded toLowerCase _ d) by done.
    cbn [search activeCategory setActiveCategory].
    apply list_filter_iff. intros i.
    rewrite matchesCat_All. cbn [andb]. apply Is_true_true. }
  transitivity (sum_list ((λ cat, length (filter (λ i, category i = cat) hits))
                   <$> categories st)).
  { f_equal. apply list_fmap_ext. intros k cat Hk.
    assert (cat ≠ All) as Hne.
    { intros ->. apply HAll. by eapply list_elem_of_lookup_2. }
    rewrite (filtered_loaded toLowerCase _ d) by done.
    cbn [search activeCategory setActiveCategory].
    unfold hits. rewrite list_filter_filter. f_equal.
    apply list_filter_iff. intros i. unfold matchesCat.
    rewrite (bool_decide_false (cat = All)) by done. simpl.
    by rewrite andb_True, bool_decide_spec, Is_true_true. }
  apply count_by_category; [apply categories_NoDup|].
  intros i [_ Hi]%list_elem_of_filter.
  apply (categories_elem _ d); [done|]. by exists i.
Qed.

End Narrowing.

(** ** The card *)

Section Card.

(** The label under a card's text tells what the click will do: it reads
    Read more exactly when the text is clamped to three lines, and a card
    whose content has at most 160 code units has no button at all and is
    never clamped. *)
Theorem card_label_matches (item : KnowledgeItem) (expanded : bool) :
  (lineClamp item expanded = true ↔
   toggleLabel item expanded = Some (js "Read more")) ∧
  (lineClamp item (negb expanded) = true ↔
   toggleLabel item expanded = Some (js "Show less")) ∧
  (toggleLabel item expanded = None ↔ (length (content item) ≤ 160)%nat) ∧
  (lineClamp item expanded = true ∨ lineClamp item (negb expanded) = true ↔
   (160 < length (content item))%nat).
Proof.
  unfold lineClamp, toggleLabel, isLong.
  destruct (Nat.ltb_spec 160 (length (content item))), expanded; simpl;
    split_and!; split; try done; try lia; try (intros [?|?]; done);
    try (intros _; by left); try (intros _; by right).
Qed.

End Card.

(** ** The loading view *)

Section Loading.

(** The loading view is shown until the fetch settles and never after it,
    whatever the user does before and after. *)
Theorem loading_view_ends (toLowerCase : JSString → JSString)
    (before after : list Action) (answer : option KnowledgeBase) :
  render toLowerCase (actions before initial) = LoadingView ∧
  render toLowerCase (actions after (fetched answer (actions before initial)))
    ≠ LoadingView.
Proof.
  unfold render. rewrite !actions_loading. split; [done|].
  assert (loading (fetched answer (actions before initial)) = false) as ->
    by by destruct answer.
  by destruct (filtered _ _).
Qed.

End Loading.

(** ** Concrete runs of the state machine *)

Section MachineRuns.

Lemma fetched_shows_all_run :
  keeps_white_space asciiLower ∧
  render asciiLower (fetched (Some sample_base) initial) =
    Cards [sleep_tip; obgyn_tip].
Proof.
  split; [exact asciiLower_keeps_white_space|].
  exact (fetched_shows_all asciiLower sample_base asciiLower_keeps_white_space).
Defined.


Lemma category_click_count_run :
  data sample_state = Some sample_base ∧
  trim (asciiLower (search sample_state)) = [] ∧
  js "OB/GYNs" ≠ All ∧
  js "OB/GYNs" ≠ activeCategory sample_state ∧
  length (filtered asciiLower (step (ClickCategory (js "OB/GYNs")) sample_state)) =
    countFor sample_state (js "OB/GYNs").
Proof.
  assert (js "OB/GYNs" ≠ All) as HAll by done.
  assert (js "OB/GYNs" ≠ activeCategory sample_state) as Hactive by done.
  split_and!; [reflexivity|reflexivity|exact HAll|exact Hactive|].
  apply (category_click_count asciiLower sample_state sample_base
           (js "OB/GYNs") eq_refl eq_refl HAll Hactive).
Defined.

Lemma category_named_All_run :
  data odd_state = Some odd_base ∧
  trim (asciiLower (search odd_state)) = [] ∧
  countFor odd_state All = 1%nat ∧
  filtered asciiLower (step (ClickCategory All) odd_state) =
    [misfiled_tip; obgyn_tip].
Proof.
  split_and!; [reflexivity|reflexivity|by vm_compute|].
  exact (category_named_All asciiLower odd_state odd_base eq_refl eq_refl).
Defined.

Lemma longer_query_narrows_run :
  includes (trim (asciiLower (js "Dr. J"))) (trim (asciiLower (js " DR"))) = true ∧
  filtered asciiLower (setSearch (js "Dr. J") sample_state) `sublist_of`
  filtered asciiLower (setSearch (js " DR") sample_state).
Proof.
  assert (includes (trim (asciiLower (js "Dr. J")))
            (trim (asciiLower (js " DR"))) = true) as Hq by (by vm_compute).
  split; [exact Hq|].
  exact (longer_query_narrows asciiLower sample_state _ _ Hq).
Defined.

Lemma search_own_field_run :
  data sample_state = Some sample_base ∧
  obgyn_tip ∈ items sample_base ∧
  obgyn_tip ∈ filtered asciiLower
    (setActiveCategory (category obgyn_tip)
       (setSearch (title obgyn_tip) sample_state)).
Proof.
  assert (obgyn_tip ∈ items sample_base) as Hitem
    by (right; apply list_elem_of_here).
  split_and!; [reflexivity|exact Hitem|].
  exact (search_own_field asciiLower sample_state sample_base obgyn_tip
           (title obgyn_tip) (category obgyn_tip) eq_refl Hitem
           (or_introl eq_refl) (or_intror eq_refl)).
Defined.

Lemma filtered_by_category_sum_run :
  data (setSearch (js "Dr") sample_state) = Some sample_base ∧
  (All ∉ categories (setSearch (js "Dr") sample_state)) ∧
  sum_list ((λ cat, length (filtered asciiLower
              (setActiveCategory cat (setSearch (js "Dr") sample_state))))
            <$> categories (setSearch (js "Dr") sample_state)) =
  length (filtered asciiLower
            (setActiveCategory All (setSearch (js "Dr") sample_state))).
Proof.
  assert (All ∉ categories (setSearch (js "Dr") sample_state)) as HAll
    by (refine (bool_decide_unpack _ _); by vm_compute).
  split_and!; [reflexivity|exact HAll|].
  exact (filtered_by_category_sum asciiLower (setSearch (js "Dr") sample_state)
           sample_base eq_refl HAll).
Defined.

End MachineRuns.
